(** * makcu: the package initializer and its controller factory

    Shallow embedding of [makcu/__init__.py].  The file binds four names
    imported from three sibling modules, defines the factory
    [create_controller] and lists the public names in [__all__].

    The sibling modules ([controller], [enums], [errors]) are not part of
    the verified sources.  Everything the factory asks of them goes through
    an interface of operations ([effect]) answered by an arbitrary
    environment; every theorem about the factory is quantified over that
    environment.

    From [docs/conf.py] the development takes the two parts that have a
    behaviour of their own: the hook [setup] and the pattern
    [copybutton_prompt_text]. *)

From Stdlib Require Import Ascii.
From stdpp Require Import base strings list gmap.

Open Scope string_scope.
Open Scope list_scope.

(** ** Python values, exceptions and call outcomes *)

(** Objects live in the environment; a program only holds their identity. *)
Definition loc := nat.

Inductive value : Type :=
| VNone
| VBool (b : bool)
| VInt (n : Z)
| VStr (s : string)
| VObj (l : loc).

#[global] Instance value_eq_dec : EqDecision value.
Proof. solve_decision. Defined.

(** Keyword arguments of a call, in the order they are written. *)
Definition kwargs : Type := list (string * value).

(** An exception object: the name of its class and what it carries. *)
Inductive exn : Type :=
| Exn (cls : string) (payload : value).

#[global] Instance exn_eq_dec : EqDecision exn.
Proof. solve_decision. Defined.

Inductive outcome (A : Type) : Type :=
| Returns (a : A)
| Raises (e : exn).
Arguments Returns {A} a.
Arguments Raises {A} e.

#[global] Instance outcome_eq_dec `{EqDecision A} : EqDecision (outcome A).
Proof. solve_decision. Defined.

(** ** Operations a function body can ask of its surroundings *)

Inductive effect : Type :=
| Instantiate (cls : string) (args : list value) (kw : kwargs)
    (* the call [cls(args, kw)] of a class *)
| CallMethod (self : value) (meth : string) (args : list value) (kw : kwargs)
    (* the method call [self.meth(args, kw)] *)
| SetAttr (obj : value) (attr : string) (v : value)
    (* the attribute store [obj.attr = v] *)
| StoreGlobal (name : string) (v : value).
    (* the rebinding [name = v] of a module-level name *)

#[global] Instance effect_eq_dec : EqDecision effect.
Proof. solve_decision. Defined.

(** One entry of the log of a run: the operation and how it ended. *)
Definition event : Type := effect * outcome value.

Definition is_instantiate (op : effect) : bool :=
  match op with Instantiate _ _ _ => true | _ => false end.

Definition is_call (op : effect) : bool :=
  match op with CallMethod _ _ _ _ => true | _ => false end.

Definition is_call_of (meth : string) (op : effect) : bool :=
  match op with
  | CallMethod _ m _ _ => bool_decide (m = meth)
  | _ => false
  end.

Definition is_mutation (op : effect) : bool :=
  match op with SetAttr _ _ _ | StoreGlobal _ _ => true | _ => false end.

Definition count_ops (p : effect -> bool) (t : list event) : nat :=
  List.length (List.filter (fun ev => p ev.1) t).

(** ** Function bodies: a free monad over [effect] with exceptions *)

Inductive py (A : Type) : Type :=
| Ret (a : A)
| Raise (e : exn)
| Do (op : effect) (k : value -> py A).
Arguments Ret {A} a.
Arguments Raise {A} e.
Arguments Do {A} op k.

Fixpoint py_bind {A B : Type} (m : py A) (f : A -> py B) : py B :=
  match m with
  | Ret a => f a
  | Raise e => Raise e
  | Do op k => Do op (fun v => py_bind (k v) f)
  end.

#[global] Instance py_ret : MRet py := @Ret.
#[global] Instance py_mbind : MBind py := fun A B f m => py_bind m f.

Definition new (cls : string) (args : list value) (kw : kwargs) : py value :=
  Do (Instantiate cls args kw) Ret.

Definition invoke (self : value) (meth : string) (args : list value)
    (kw : kwargs) : py value :=
  Do (CallMethod self meth args kw) Ret.

(** ** Running a body against an environment *)

Record result (W A : Type) : Type := Result {
  res : outcome A;
  final : W;
  trace : list event
}.
Arguments Result {W A} res final trace.
Arguments res {W A} r.
Arguments final {W A} r.
Arguments trace {W A} r.

(** The environment is a state [W] and a function [perform] that answers
    one operation in a state.  An operation that raises ends the run there:
    no body in this file catches an exception. *)
Fixpoint run {W A : Type} (perform : effect -> W -> outcome value * W)
    (p : py A) (w : W) : result W A :=
  match p with
  | Ret a => Result (Returns a) w []
  | Raise e => Result (Raises e) w []
  | Do op k =>
      match perform op w with
      | (Returns v, w1) =>
          let r := run perform (k v) w1 in
          Result (res r) (final r) ((op, Returns v) :: trace r)
      | (Raises e, w1) => Result (Raises e) w1 [(op, Raises e)]
      end
  end.

(** ** Binding the arguments of a call to the parameters of a [def] *)

#[global] Instance outcome_ret : MRet outcome := @Returns.
#[global] Instance outcome_bind : MBind outcome := fun A B f m =>
  match m with
  | Returns a => f a
  | Raises e => Raises e
  end.

(** What Python raises when a call does not fit the signature. *)
Definition TypeError : exn := Exn "TypeError" VNone.

(** A formal parameter: its name and its default, when it has one. *)
Definition param : Type := string * option value.

(** A slot: a parameter name and the argument bound to it so far. *)
Definition slot : Type := string * option value.

(** Positional arguments fill the parameters from the left; one argument
    too many is a [TypeError]. *)
Fixpoint fill_positional (ps : list param) (args : list value)
    : outcome (list slot) :=
  match ps, args with
  | [], [] => Returns []
  | [], _ :: _ => Raises TypeError
  | (n, _) :: ps', [] =>
      rest ← fill_positional ps' []; mret ((n, None) :: rest)
  | (n, _) :: ps', a :: args' =>
      rest ← fill_positional ps' args'; mret ((n, Some a) :: rest)
  end.

(** A keyword argument goes to the parameter of that name; an unknown name
    and a parameter that already has a value are [TypeError]s. *)
Fixpoint fill_keyword (k : string) (v : value) (slots : list slot)
    : outcome (list slot) :=
  match slots with
  | [] => Raises TypeError
  | (n, bound) :: rest =>
      if decide (n = k) then
        match bound with
        | None => Returns ((n, Some v) :: rest)
        | Some _ => Raises TypeError
        end
      else
        rest' ← fill_keyword k v rest; mret ((n, bound) :: rest')
  end.

Fixpoint fill_keywords (kw : kwargs) (slots : list slot)
    : outcome (list slot) :=
  match kw with
  | [] => Returns slots
  | (k, v) :: kw' => slots' ← fill_keyword k v slots; fill_keywords kw' slots'
  end.

(** A parameter left without an argument takes its default; one without a
    default is a [TypeError]. *)
Fixpoint fill_defaults (ps : list param) (slots : list slot)
    : outcome (list value) :=
  match ps, slots with
  | (_, dflt) :: ps', (_, bound) :: slots' =>
      v ← match bound, dflt with
          | Some a, _ => Returns a
          | None, Some d => Returns d
          | None, None => Raises TypeError
          end;
      vs ← fill_defaults ps' slots'; mret (v :: vs)
  | _, _ => Returns []
  end.

Definition bind_args (ps : list param) (args : list value) (kw : kwargs)
    : outcome (list value) :=
  slots ← fill_positional ps args;
  slots' ← fill_keywords kw slots;
  fill_defaults ps slots'.

(** ** [makcu/__init__.py] *)

(** [def create_controller(port=None, debug=False, send_init=True)]:
    the parameter list of the [def]. *)
Definition create_controller_params : list param :=
  [("port", Some VNone);
   ("debug", Some (VBool false));
   ("send_init", Some (VBool true))].

(** The two operations the body performs: the call of the class with the
    three values as keyword arguments, and [connect()] on an object. *)
Definition construction (port debug send_init : value) : effect :=
  Instantiate "MakcuController" []
    [("port", port); ("debug", debug); ("send_init", send_init)].

Definition connection (obj : value) : effect :=
  CallMethod obj "connect" [] [].

(** The body of [create_controller], given the three bound parameters. *)
Definition create_controller (port debug send_init : value) : py value :=
  makcu ← new "MakcuController" []
            [("port", port); ("debug", debug); ("send_init", send_init)];
  _ ← invoke makcu "connect" [] [];
  mret makcu.

(** A call [create_controller(args, kw)] as a caller writes it: the
    arguments are bound to the parameters, then the body runs. *)
Definition call_create_controller (args : list value) (kw : kwargs)
    : py value :=
  match bind_args create_controller_params args kw with
  | Returns [port; debug; send_init] => create_controller port debug send_init
  | Returns _ => Raise TypeError
  | Raises e => Raise e
  end.

(** *** Module-level names *)

(** How a statement at the top of the file binds a name. *)
Inductive binding : Type :=
| ImportFrom (module name : string)   (* [from .module import name] *)
| FunctionDef                         (* [def name(...)] in this file *)
| ListOfNames (names : list string).  (* [name = [...]] in this file *)

#[global] Instance binding_eq_dec : EqDecision binding.
Proof. solve_decision. Defined.

(** The public names, in the order the list literal gives them. *)
Definition __all__ : list string :=
  ["MakcuController";
   "MouseButton";
   "MakcuError";
   "MakcuConnectionError";
   "create_controller"].

(** The top-level statements of the file, in source order. *)
Definition module_body : list (string * binding) :=
  [("MakcuController", ImportFrom "controller" "MakcuController");
   ("MouseButton", ImportFrom "enums" "MouseButton");
   ("MakcuError", ImportFrom "errors" "MakcuError");
   ("MakcuConnectionError", ImportFrom "errors" "MakcuConnectionError");
   ("create_controller", FunctionDef);
   ("__all__", ListOfNames __all__)].

(** The namespace of the package once the file has run: each statement
    binds its name, a later one replacing an earlier one. *)
Definition namespace : gmap string binding :=
  foldl (fun ns stmt => <[stmt.1 := stmt.2]> ns) ∅ module_body.

(** The module a public name was imported from, if it was imported. *)
Definition origin (name : string) : option string :=
  match namespace !! name with
  | Some (ImportFrom m _) => Some m
  | _ => None
  end.

Definition reexported (name : string) : bool :=
  bool_decide (is_Some (origin name)).

Definition defined_here (name : string) : bool :=
  bool_decide (namespace !! name = Some FunctionDef).

(** The exported error types: the public names that come from [errors]. *)
Definition exported_errors : list string :=
  List.filter (fun n => bool_decide (origin n = Some "errors")) __all__.

(** *** Reading a call *)

(** The value a keyword list gives a name, if it names it. *)
Definition lookup_keyword (k : string) (kw : kwargs) : option value :=
  snd <$> List.find (fun kv => bool_decide (kv.1 = k)) kw.

(** The value the parameter at position [i], called [name], takes in a
    call: the positional argument at [i] when there is one, else the
    keyword argument of that name, else the default [dflt]. *)
Definition passed (i : nat) (name : string) (dflt : value)
    (args : list value) (kw : kwargs) : value :=
  match args !! i with
  | Some a => a
  | None => default dflt (lookup_keyword name kw)
  end.

(** A call fits a parameter list when it has no more positional arguments
    than there are parameters, names no keyword twice, and every keyword
    is a parameter that no positional argument has taken. *)
Definition fits (names : list string) (args : list value) (kw : kwargs)
    : Prop :=
  List.length args <= List.length names
  /\ NoDup kw.*1
  /\ Forall (fun k => k ∈ drop (List.length args) names) kw.*1.

#[global] Instance fits_dec names args kw : Decision (fits names args kw).
Proof. unfold fits. apply _. Defined.

(** The slots after the positional arguments, and after one or all of the
    keyword arguments of a call that fits, in closed form. *)
Definition positional_slots (ps : list param) (args : list value)
    : list slot :=
  imap (fun i p => (p.1, args !! i)) ps.

Definition set_slot (k : string) (v : value) (s : slot) : slot :=
  if decide (s.1 = k) then (k, Some v) else s.

Definition set_slots (kw : kwargs) (s : slot) : slot :=
  match lookup_keyword s.1 kw with
  | Some v => (s.1, Some v)
  | None => s
  end.

(** ** [docs/conf.py] *)

(** [def setup(app)]: one parameter, without a default. *)
Definition setup_params : list param := [("app", None)].

(** The body of [setup]: one call on the application, whose result is
    dropped; the function ends without a [return], which gives [None]. *)
Definition setup (app : value) : py value :=
  _ ← invoke app "add_css_file" [VStr "custom.css"] [];
  mret VNone.

Definition call_setup (args : list value) (kw : kwargs) : py value :=
  match bind_args setup_params args kw with
  | Returns [app] => setup app
  | Returns _ => Raise TypeError
  | Raises e => Raise e
  end.

(** *** The prompt pattern *)

(** A text as the list of its characters. *)
Definition chars (s : string) : list ascii := String.list_ascii_of_string s.

(** What one position of the pattern accepts: a given character (written
    plainly or behind a backslash), or a decimal digit. *)
Inductive atom : Type :=
| Char (c : ascii)
| Digit.

Definition is_digit (c : ascii) : bool :=
  (48 <=? nat_of_ascii c)%nat && (nat_of_ascii c <=? 57)%nat.

Definition atom_matches (a : atom) (c : ascii) : bool :=
  match a with
  | Char c' => bool_decide (c = c')
  | Digit => is_digit c
  end.

(** An atom with the number of times it may repeat. *)
Record piece : Type := Piece {
  what : atom;
  at_least : nat;
  at_most : option nat
}.

(** The plain atom, the starred atom and the atom with a range. *)
Definition once (a : atom) : piece := Piece a 1 (Some 1).
Definition star (a : atom) : piece := Piece a 0 None.
Definition between (m n : nat) (a : atom) : piece := Piece a m (Some n).
Definition lit (s : string) : list piece := (fun c => once (Char c)) <$> chars s.

(** A pattern: alternatives, each a sequence of pieces. *)
Definition regex : Type := list (list piece).

(** The raw string of [copybutton_prompt_text], read as the regular
    expression that [copybutton_prompt_is_regexp = True] says it is: six
    alternatives separated by bars. *)
Definition copybutton_prompt_text : regex :=
  [ lit ">>> ";
    lit "... ";
    lit "$ ";
    lit "In [" ++ [star Digit] ++ lit "]: ";
    [between 2 5 (Char " "%char)] ++ lit "...: ";
    [between 5 8 (Char " "%char)] ++ lit ": " ].

(** The repetition counts to try for a piece on a text of [len]
    characters. *)
Definition counts (p : piece) (len : nat) : list nat :=
  let hi := match at_most p with Some n => n `min` len | None => len end in
  seq (at_least p) (S hi - at_least p).

(** Whether a sequence of pieces matches the whole of [s]: some count of
    leading characters goes to the first piece and the rest of the
    sequence matches what is left. *)
Fixpoint match_seq (ps : list piece) (s : list ascii) : bool :=
  match ps with
  | [] => bool_decide (s = [])
  | p :: ps' =>
      existsb
        (fun n => forallb (atom_matches (what p)) (take n s)
                  && match_seq ps' (drop n s))
        (counts p (List.length s))
  end.

(** Whether some alternative matches the whole of [s]. *)
Definition matches (re : regex) (s : list ascii) : bool :=
  existsb (fun alt => match_seq alt s) re.

(** ** A test double for the controller module

    A small environment to run the factory in: it keeps a table of the
    controllers built so far, each with the port it was given and whether
    it is connected.  The constructor refuses a [debug] that is not a
    boolean; [connect] finds no device when the port is not a string. *)
Module Mock.

Definition world : Type := list (value * bool).

Definition MakcuError : exn := Exn "MakcuError" VNone.
Definition MakcuConnectionError : exn := Exn "MakcuConnectionError" VNone.
Definition AttributeError : exn := Exn "AttributeError" VNone.
Definition NameError : exn := Exn "NameError" VNone.

Definition keyword (k : string) (kw : kwargs) : value :=
  match List.find (fun kv => bool_decide (kv.1 = k)) kw with
  | Some kv => kv.2
  | None => VNone
  end.

Definition construct (kw : kwargs) (w : world) : outcome value * world :=
  match keyword "debug" kw with
  | VBool _ => (Returns (VObj (List.length w)), w ++ [(keyword "port" kw, false)])
  | _ => (Raises MakcuError, w)
  end.

Definition connect (l : loc) (w : world) : outcome value * world :=
  match w !! l with
  | Some (VStr p, _) => (Returns VNone, <[l := (VStr p, true)]> w)
  | Some _ => (Raises MakcuConnectionError, w)
  | None => (Raises AttributeError, w)
  end.

Definition perform (op : effect) (w : world) : outcome value * world :=
  match op with
  | Instantiate cls [] kw =>
      if decide (cls = "MakcuController") then construct kw w
      else (Raises NameError, w)
  | CallMethod (VObj l) meth [] [] =>
      if decide (meth = "connect") then connect l w
      else (Raises AttributeError, w)
  | _ => (Raises AttributeError, w)
  end.

End Mock.

(** * Properties *)

(** ** The factory, against any environment *)

Section Factory.
Context {W : Type}.
Variable perform : effect -> W -> outcome value * W.

(** The three ways a run of the body can go. *)
Lemma run_create_controller port debug send_init w :
  run perform (create_controller port debug send_init) w =
  match perform (construction port debug send_init) w with
  | (Raises e, w1) =>
      Result (Raises e) w1 [(construction port debug send_init, Raises e)]
  | (Returns obj, w1) =>
      match perform (connection obj) w1 with
      | (Raises e, w2) =>
          Result (Raises e) w2
            [(construction port debug send_init, Returns obj);
             (connection obj, Raises e)]
      | (Returns v, w2) =>
          Result (Returns obj) w2
            [(construction port debug send_init, Returns obj);
             (connection obj, Returns v)]
      end
  end.
Proof.
  unfold create_controller, construction, connection; cbn.
  destruct (perform _ w) as [[obj|e] w1]; [|reflexivity].
  cbn. destruct (perform _ w1) as [[v|e] w2]; reflexivity.
Qed.

(** A run that returns went through both operations. *)
Lemma run_create_controller_returns port debug send_init w obj :
  res (run perform (create_controller port debug send_init) w) = Returns obj ->
  exists w1 v w2,
    perform (construction port debug send_init) w = (Returns obj, w1)
    /\ perform (connection obj) w1 = (Returns v, w2)
    /\ run perform (create_controller port debug send_init) w =
       Result (Returns obj) w2
         [(construction port debug send_init, Returns obj);
          (connection obj, Returns v)].
Proof.
  rewrite run_create_controller.
  destruct (perform _ w) as [[o|e] w1] eqn:Hnew; [|discriminate].
  destruct (perform _ w1) as [[v|e] w2] eqn:Hconn; [|discriminate].
  cbn. intros [= ->]. exists w1, v, w2. rewrite Hconn. auto.
Qed.

(** C1: whatever the environment, when [create_controller(port, debug,
    send_init)] returns, the value it returns is the very object the call
    [MakcuController(port=port, debug=debug, send_init=send_init)] gave
    back: that call is the first operation of the run, it carries the three
    values as they were received, and it is the only construction. *)
Theorem create_controller_returns_constructed port debug send_init w obj :
  res (run perform (create_controller port debug send_init) w) = Returns obj ->
  let new_makcu :=
    Instantiate "MakcuController" []
      [("port", port); ("debug", debug); ("send_init", send_init)] in
  let t := trace (run perform (create_controller port debug send_init) w) in
  (perform new_makcu w).1 = Returns obj
  /\ head t = Some (new_makcu, Returns obj)
  /\ count_ops is_instantiate t = 1.
Proof.
  intros H. destruct (run_create_controller_returns _ _ _ _ _ H)
    as (w1 & v & w2 & Hnew & _ & ->).
  cbn. unfold construction in Hnew. rewrite Hnew. auto.
Qed.

(** C2: when [create_controller] returns, [connect()] has been called
    exactly once during the run, on the object that is returned, with no
    arguments, after the construction of that object; no other call of
    [connect], on this or on another object, is in the run. *)
Theorem create_controller_connects_once port debug send_init w obj :
  res (run perform (create_controller port debug send_init) w) = Returns obj ->
  let t := trace (run perform (create_controller port debug send_init) w) in
  (exists v,
     t = [(construction port debug send_init, Returns obj);
          (CallMethod obj "connect" [] [], Returns v)])
  /\ count_ops (is_call_of "connect") t = 1
  /\ (forall self args kw r,
        (CallMethod self "connect" args kw, r) ∈ t ->
        self = obj /\ args = [] /\ kw = []).
Proof.
  intros H. destruct (run_create_controller_returns _ _ _ _ _ H)
    as (w1 & v & w2 & _ & _ & ->).
  cbn. split; [by exists v|]. split; [reflexivity|].
  intros self args kw r Hin.
  apply elem_of_cons in Hin as [Hin|Hin]; [discriminate|].
  apply elem_of_cons in Hin as [Hin|Hin]; [|by apply elem_of_nil in Hin].
  by injection Hin as -> -> -> _.
Qed.

(** C3: [create_controller] raises [e] exactly when the constructor raises
    [e], or the constructor returns an object and [connect()] on it raises
    [e]; the exception that comes out is the one that went in, and a run
    that raises returns no object. *)
Theorem create_controller_raises_iff port debug send_init w e :
  let r := run perform (create_controller port debug send_init) w in
  (res r = Raises e <->
     (perform (construction port debug send_init) w).1 = Raises e
     \/ exists obj w1,
          perform (construction port debug send_init) w = (Returns obj, w1)
          /\ (perform (connection obj) w1).1 = Raises e)
  /\ (res r = Raises e -> forall obj, res r <> Returns obj).
Proof.
  cbn zeta. rewrite run_create_controller. split.
  - destruct (perform _ w) as [[obj|e1] w1] eqn:Hnew.
    + destruct (perform _ w1) as [[v|e2] w2] eqn:Hconn; cbn; split.
      * discriminate.
      * intros [Hc|(o & w' & [= <- <-] & Hc)]; [discriminate|].
        rewrite Hconn in Hc. discriminate.
      * intros [= ->]. right. exists obj, w1. by rewrite Hconn.
      * intros [Hc|(o & w' & [= <- <-] & Hc)]; [discriminate|].
        rewrite Hconn in Hc. exact Hc.
    + cbn. split; [intros [= ->]; by left|].
      intros [Hc|(o & w' & Hc & _)]; [exact Hc | discriminate].
  - intros -> obj. discriminate.
Qed.

(** C8: all a run of [create_controller] does is the construction of one
    [MakcuController] from the three values and, when that returns, one
    call of [connect()] without arguments on the object built.  It calls
    no other method, stores to no attribute (of the arguments or of
    anything else) and rebinds no module-level name; the state it leaves
    is the one these two operations leave. *)
Theorem create_controller_frame port debug send_init w :
  let r := run perform (create_controller port debug send_init) w in
  (forall ev, ev ∈ trace r ->
     ev.1 = construction port debug send_init
     \/ exists obj,
          (construction port debug send_init, Returns obj) ∈ trace r
          /\ ev.1 = CallMethod obj "connect" [] [])
  /\ count_ops is_instantiate (trace r) = 1
  /\ count_ops is_call (trace r) <= 1
  /\ count_ops is_mutation (trace r) = 0
  /\ final r =
       match perform (construction port debug send_init) w with
       | (Returns obj, w1) => (perform (connection obj) w1).2
       | (Raises _, w1) => w1
       end.
Proof.
  cbn zeta. rewrite run_create_controller.
  destruct (perform _ w) as [[obj|e1] w1].
  - assert (Hshape : forall (o : outcome value) ev,
              ev ∈ [(construction port debug send_init, Returns obj);
                    (connection obj, o)] ->
              ev.1 = construction port debug send_init
              \/ exists obj0,
                   (construction port debug send_init, Returns obj0)
                     ∈ [(construction port debug send_init, Returns obj);
                        (connection obj, o)]
                   /\ ev.1 = CallMethod obj0 "connect" [] []).
    { intros o ev Hin.
      apply elem_of_cons in Hin as [->|Hin]; [by left|].
      apply elem_of_cons in Hin as [->|Hin]; [|by apply elem_of_nil in Hin].
      right. exists obj. split; [apply elem_of_cons; by left | reflexivity]. }
    destruct (perform _ w1) as [[v|e2] w2]; cbn;
      (split; [apply Hshape | repeat split; auto]).
  - cbn. split; [|repeat split; auto].
    intros ev Hin.
    apply elem_of_cons in Hin as [->|Hin]; [by left|].
    by apply elem_of_nil in Hin.
Qed.

End Factory.

(** *** The factory against the test double *)

(** With a port that has a device the run returns the first object of the
    table, and both theorems above apply to it. *)
Lemma create_controller_returns_constructed_witness :
  res (run Mock.perform
         (create_controller (VStr "COM3") (VBool false) (VBool true)) [])
    = Returns (VObj 0)
  /\ let new_makcu :=
       Instantiate "MakcuController" []
         [("port", VStr "COM3"); ("debug", VBool false);
          ("send_init", VBool true)] in
     let t :=
       trace (run Mock.perform
                (create_controller (VStr "COM3") (VBool false) (VBool true))
                []) in
     (Mock.perform new_makcu []).1 = Returns (VObj 0)
     /\ head t = Some (new_makcu, Returns (VObj 0))
     /\ count_ops is_instantiate t = 1.
Proof.
  split; [reflexivity|].
  apply (create_controller_returns_constructed Mock.perform
           (VStr "COM3") (VBool false) (VBool true) [] (VObj 0)).
  reflexivity.
Defined.

Lemma create_controller_connects_once_witness :
  res (run Mock.perform
         (create_controller (VStr "COM3") (VBool false) (VBool true)) [])
    = Returns (VObj 0)
  /\ let t :=
       trace (run Mock.perform
                (create_controller (VStr "COM3") (VBool false) (VBool true))
                []) in
     (exists v,
        t = [(construction (VStr "COM3") (VBool false) (VBool true),
              Returns (VObj 0));
             (CallMethod (VObj 0) "connect" [] [], Returns v)])
     /\ count_ops (is_call_of "connect") t = 1
     /\ (forall self args kw r,
           (CallMethod self "connect" args kw, r) ∈ t ->
           self = VObj 0 /\ args = [] /\ kw = []).
Proof.
  split; [reflexivity|].
  apply (create_controller_connects_once Mock.perform
           (VStr "COM3") (VBool false) (VBool true) [] (VObj 0)).
  reflexivity.
Defined.

(** Without a port the double's [connect] finds no device: the error of
    [connect] is what the factory raises, after one construction. *)
Example create_controller_connect_fails :
  run Mock.perform (create_controller VNone (VBool false) (VBool true)) [] =
  Result (Raises Mock.MakcuConnectionError) [(VNone, false)]
    [(construction VNone (VBool false) (VBool true), Returns (VObj 0));
     (connection (VObj 0), Raises Mock.MakcuConnectionError)].
Proof. reflexivity. Qed.

(** When the constructor refuses its arguments, [connect] is never called. *)
Example create_controller_constructor_fails :
  run Mock.perform (create_controller VNone (VInt 1) (VBool true)) [] =
  Result (Raises Mock.MakcuError) []
    [(construction VNone (VInt 1) (VBool true), Raises Mock.MakcuError)].
Proof. reflexivity. Qed.

(** ** The signature of the factory *)

Lemma fill_positional_too_many (ps : list param) (args : list value) :
  List.length ps < List.length args ->
  fill_positional ps args = Raises TypeError.
Proof.
  revert args. induction ps as [|[n d] ps IH]; intros [|a args]; cbn;
    try lia; [reflexivity|].
  intros Hlen. rewrite IH by lia. reflexivity.
Qed.

Lemma fill_positional_length (ps : list param) (args : list value) slots :
  fill_positional ps args = Returns slots ->
  List.length slots = List.length ps.
Proof.
  revert args slots.
  induction ps as [|[n d] ps IH]; intros [|a args] slots; cbn;
    try discriminate.
  - by intros [= <-].
  - destruct (fill_positional ps []) as [rest|e] eqn:Hrest; cbn;
      [|discriminate].
    intros [= <-]. cbn. f_equal. eauto.
  - destruct (fill_positional ps args) as [rest|e] eqn:Hrest; cbn;
      [|discriminate].
    intros [= <-]. cbn. f_equal. eauto.
Qed.

Lemma fill_keyword_length k v (slots slots' : list slot) :
  fill_keyword k v slots = Returns slots' ->
  List.length slots' = List.length slots.
Proof.
  revert slots'. induction slots as [|[n b] rest IH]; intros slots'; cbn;
    [discriminate|].
  destruct (decide (n = k)).
  - destruct b; [discriminate|]. by intros [= <-].
  - destruct (fill_keyword k v rest) as [rest'|e]; cbn; [|discriminate].
    intros [= <-]. cbn. f_equal. eauto.
Qed.

Lemma fill_keywords_length kw (slots slots' : list slot) :
  fill_keywords kw slots = Returns slots' ->
  List.length slots' = List.length slots.
Proof.
  revert slots. induction kw as [|[k v] kw IH]; intros slots; cbn.
  - by intros [= <-].
  - destruct (fill_keyword k v slots) as [s1|e] eqn:Hk; cbn; [|discriminate].
    intros H. rewrite (IH _ H). eauto using fill_keyword_length.
Qed.

Lemma fill_defaults_length (ps : list param) (slots : list slot) vs :
  List.length slots = List.length ps ->
  fill_defaults ps slots = Returns vs ->
  List.length vs = List.length ps.
Proof.
  revert slots vs.
  induction ps as [|[n d] ps IH]; intros [|[m b] slots] vs; cbn;
    try discriminate.
  - by intros _ [= <-].
  - intros [= Hlen].
    destruct (match b with
              | Some a => Returns a
              | None => match d with
                        | Some d0 => Returns d0
                        | None => Raises TypeError
                        end
              end) as [v|e]; cbn; [|discriminate].
    destruct (fill_defaults ps slots) as [vs'|e] eqn:Hd; cbn; [|discriminate].
    intros [= <-]. cbn. f_equal. eauto.
Qed.

(** A call that binds gives every parameter one value. *)
Lemma bind_args_length (ps : list param) args kw vs :
  bind_args ps args kw = Returns vs -> List.length vs = List.length ps.
Proof.
  unfold bind_args.
  destruct (fill_positional ps args) as [s0|e] eqn:H0; cbn; [|discriminate].
  destruct (fill_keywords kw s0) as [s1|e] eqn:H1; cbn; [|discriminate].
  intros H. eapply fill_defaults_length; [|exact H].
  rewrite (fill_keywords_length _ _ _ H1).
  eauto using fill_positional_length.
Qed.

(** A call of the factory either fails to bind, and raises before the
    body starts, or is the body at the three bound values. *)
Lemma call_create_controller_cases args kw :
  (exists e, bind_args create_controller_params args kw = Raises e
             /\ call_create_controller args kw = Raise e)
  \/ (exists port debug send_init,
        bind_args create_controller_params args kw
          = Returns [port; debug; send_init]
        /\ call_create_controller args kw
          = create_controller port debug send_init).
Proof.
  unfold call_create_controller.
  destruct (bind_args create_controller_params args kw) as [vs|e] eqn:Hb.
  - right. apply bind_args_length in Hb.
    destruct vs as [|p [|d [|s [|x vs]]]]; try discriminate.
    by exists p, d, s.
  - left. by exists e.
Qed.

(** C6: the [def] has exactly the three parameters [port], [debug] and
    [send_init], in this order, and its body returns one value.  [port] is
    optional and may be [None]: a call that gives no port is accepted and
    binds [port] to [None].  [debug] and [send_init] are flags whose
    declared defaults are booleans.  A fourth positional argument, and a
    keyword that is none of the three names, are rejected. *)
Theorem create_controller_signature :
  create_controller_params.*1 = ["port"; "debug"; "send_init"]
  /\ (forall debug send_init,
        bind_args create_controller_params []
          [("debug", debug); ("send_init", send_init)]
        = Returns [VNone; debug; send_init])
  /\ (forall debug send_init,
        call_create_controller [] [("debug", debug); ("send_init", send_init)]
        = create_controller VNone debug send_init)
  /\ (forall port debug send_init,
        call_create_controller [port; debug; send_init] []
        = create_controller port debug send_init)
  /\ (exists b, create_controller_params !! 1 = Some ("debug", Some (VBool b)))
  /\ (exists b,
        create_controller_params !! 2 = Some ("send_init", Some (VBool b)))
  /\ (forall args kw,
        3 < List.length args ->
        call_create_controller args kw = Raise TypeError)
  /\ (forall args k v,
        k ∉ ["port"; "debug"; "send_init"] ->
        call_create_controller args [(k, v)] = Raise TypeError).
Proof.
  split; [reflexivity|]. split; [reflexivity|]. split; [reflexivity|].
  split; [reflexivity|]. split; [by exists false|]. split; [by exists true|].
  split.
  - intros args kw Hlen. unfold call_create_controller, bind_args.
    rewrite fill_positional_too_many by (cbn; lia). reflexivity.
  - intros args k v Hk.
    assert (k <> "port" /\ k <> "debug" /\ k <> "send_init") as (H1 & H2 & H3).
    { repeat split; intros ->; apply Hk; set_solver. }
    unfold call_create_controller, bind_args.
    destruct args as [|a0 [|a1 [|a2 [|a3 args]]]]; cbn;
      repeat (rewrite decide_False by congruence; cbn); reflexivity.
Qed.

(** C7: every parameter has a default, [None] for [port], [False] for
    [debug] and [True] for [send_init]; the call [create_controller()] is
    the same computation as [create_controller(port=None, debug=False,
    send_init=True)], and an argument left out of a call takes its
    default. *)
Theorem create_controller_defaults :
  create_controller_params =
    [("port", Some VNone); ("debug", Some (VBool false));
     ("send_init", Some (VBool true))]
  /\ call_create_controller [] [] =
     call_create_controller []
       [("port", VNone); ("debug", VBool false); ("send_init", VBool true)]
  /\ call_create_controller [] [] =
     create_controller VNone (VBool false) (VBool true)
  /\ (forall port,
        call_create_controller [port] [] =
        create_controller port (VBool false) (VBool true))
  /\ (forall port debug,
        call_create_controller [port; debug] [] =
        create_controller port debug (VBool true))
  /\ (forall (W : Type) (perform : effect -> W -> outcome value * W) w,
        run perform (call_create_controller [] []) w =
        run perform
          (call_create_controller []
             [("port", VNone); ("debug", VBool false);
              ("send_init", VBool true)]) w).
Proof. repeat split; reflexivity. Qed.

(** ** The public names of the package *)

(** C4, as the claim has it: five public names, four of them re-exported,
    and the four all coming from the [controller] module.  The last part
    fails at [MouseButton], which is imported from [enums]. *)
Lemma reexports_not_all_from_controller :
  origin "MouseButton" = Some "enums"
  /\ ~ (__all__ =
         ["MakcuController"; "MouseButton"; "MakcuError";
          "MakcuConnectionError"; "create_controller"]
       /\ List.filter reexported __all__ =
          ["MakcuController"; "MouseButton"; "MakcuError";
           "MakcuConnectionError"]
       /\ forall name,
            name ∈ List.filter reexported __all__ ->
            origin name = Some "controller").
Proof.
  split; [by vm_compute|].
  intros (_ & Hre & H). specialize (H "MouseButton").
  rewrite Hre in H.
  assert (Hin : "MouseButton" ∈
                ["MakcuController"; "MouseButton"; "MakcuError";
                 "MakcuConnectionError"]) by set_solver.
  specialize (H Hin). vm_compute in H. discriminate.
Qed.

(** C4, amended: [__all__] is exactly the five names [MakcuController],
    [MouseButton], [MakcuError], [MakcuConnectionError] and
    [create_controller], each bound in the package.  The first four are
    re-exported imports and come from three sibling modules:
    [MakcuController] from [controller], [MouseButton] from [enums],
    [MakcuError] and [MakcuConnectionError] from [errors]; the fifth is the
    function this file defines. *)
Theorem public_names :
  __all__ =
    ["MakcuController"; "MouseButton"; "MakcuError"; "MakcuConnectionError";
     "create_controller"]
  /\ NoDup __all__
  /\ Forall (fun name => is_Some (namespace !! name)) __all__
  /\ List.filter reexported __all__ =
     ["MakcuController"; "MouseButton"; "MakcuError"; "MakcuConnectionError"]
  /\ List.filter defined_here __all__ = ["create_controller"]
  /\ namespace !! "MakcuController" =
     Some (ImportFrom "controller" "MakcuController")
  /\ namespace !! "MouseButton" = Some (ImportFrom "enums" "MouseButton")
  /\ namespace !! "MakcuError" = Some (ImportFrom "errors" "MakcuError")
  /\ namespace !! "MakcuConnectionError" =
     Some (ImportFrom "errors" "MakcuConnectionError")
  /\ namespace !! "create_controller" = Some FunctionDef.
Proof.
  split; [reflexivity|].
  split; [compute_done|].
  split; [compute_done|].
  repeat split; by vm_compute.
Qed.

(** C5: the package exports exactly two error types, [MakcuError] and
    [MakcuConnectionError]; they are two different public names, the
    connection error apart from the general one. *)
Theorem two_error_types_exported :
  exported_errors = ["MakcuError"; "MakcuConnectionError"]
  /\ List.length exported_errors = 2
  /\ "MakcuError" ∈ __all__
  /\ "MakcuConnectionError" ∈ __all__
  /\ "MakcuConnectionError" <> "MakcuError".
Proof.
  split; [by vm_compute|]. split; [by vm_compute|].
  split; [unfold __all__; set_solver|].
  split; [unfold __all__; set_solver|]. discriminate.
Qed.

(** * Further properties *)

(** ** Argument binding in closed form *)

Lemma lookup_keyword_cons k k' v kw :
  lookup_keyword k ((k', v) :: kw) =
  if decide (k' = k) then Some v else lookup_keyword k kw.
Proof.
  unfold lookup_keyword. cbn. case_bool_decide; case_decide; done.
Qed.

Lemma lookup_keyword_None k kw : k ∉ kw.*1 -> lookup_keyword k kw = None.
Proof.
  induction kw as [|[k' v] kw IH]; [done|].
  rewrite lookup_keyword_cons. cbn. intros Hk.
  apply not_elem_of_cons in Hk as [Hne Hk].
  rewrite decide_False by done. auto.
Qed.

Lemma lookup_keyword_Some k v kw :
  NoDup kw.*1 -> lookup_keyword k kw = Some v <-> (k, v) ∈ kw.
Proof.
  induction kw as [|[k' v'] kw IH].
  - intros _. split; [done|]. by intros ?%elem_of_nil.
  - rewrite fmap_cons. cbn [fst].
    intros [Hk' Hnd]%NoDup_cons. rewrite lookup_keyword_cons, elem_of_cons.
    case_decide as Hd.
    + subst k'. split; [intros [= ->]; by left|].
      intros [[= ->]|Hin]; [done|].
      destruct Hk'. apply list_elem_of_fmap. by exists (k, v).
    + rewrite IH by done. split; [by right|].
      intros [[= -> ->]|Hin]; done.
Qed.

Lemma lookup_keyword_perm k kw kw' :
  NoDup kw.*1 -> kw ≡ₚ kw' -> lookup_keyword k kw = lookup_keyword k kw'.
Proof.
  intros Hnd Hp.
  assert (Hnd' : NoDup kw'.*1) by (by rewrite <- Hp).
  destruct (lookup_keyword k kw) as [v|] eqn:H1.
  - symmetry. apply lookup_keyword_Some; [done|].
    rewrite <- Hp. by apply lookup_keyword_Some.
  - destruct (lookup_keyword k kw') as [v|] eqn:H2; [|done].
    apply lookup_keyword_Some in H2; [|done]. rewrite <- Hp in H2.
    apply lookup_keyword_Some in H2; [|done]. congruence.
Qed.

Lemma fill_positional_fits (ps : list param) (args : list value) :
  List.length args <= List.length ps ->
  fill_positional ps args = Returns (positional_slots ps args).
Proof.
  unfold positional_slots. revert args.
  induction ps as [|[n d] ps IH]; intros [|a args]; cbn; try lia.
  - done.
  - intros _. rewrite (IH []) by (cbn; lia). done.
  - intros Hlen. rewrite IH by lia. done.
Qed.

Lemma set_slot_names k v (slots : list slot) :
  (set_slot k v <$> slots).*1 = slots.*1.
Proof.
  induction slots as [|[n b] slots IH]; [done|].
  cbn. rewrite IH. unfold set_slot. cbn. by case_decide; subst.
Qed.

Lemma set_slot_absent k v (slots : list slot) :
  k ∉ slots.*1 -> set_slot k v <$> slots = slots.
Proof.
  induction slots as [|[n b] slots IH]; [done|].
  cbn. intros [Hne Hk]%not_elem_of_cons.
  rewrite IH by done. unfold set_slot. cbn. by rewrite decide_False.
Qed.

Lemma elem_of_set_slot k v k' (slots : list slot) :
  (k', None) ∈ set_slot k v <$> slots <-> (k', None) ∈ slots /\ k' <> k.
Proof.
  rewrite list_elem_of_fmap. split.
  - intros ([n b] & Heq & Hin). unfold set_slot in Heq. cbn in Heq.
    case_decide; [done|]. by injection Heq as -> ->.
  - intros [Hin Hne]. exists (k', None). split; [|done].
    unfold set_slot. cbn. by rewrite decide_False.
Qed.

Lemma fill_keyword_eq k v (slots : list slot) :
  NoDup slots.*1 ->
  fill_keyword k v slots =
  if decide ((k, None) ∈ slots) then Returns (set_slot k v <$> slots)
  else Raises TypeError.
Proof.
  induction slots as [|[n b] rest IH]; cbn.
  - intros _. rewrite decide_False; [done|]. by intros ?%elem_of_nil.
  - intros [Hn Hnd]%NoDup_cons. destruct (decide (n = k)) as [->|Hd].
    + unfold set_slot at 1. cbn. rewrite (decide_True _ _ (eq_refl k)).
      rewrite set_slot_absent by done.
      destruct b as [a|].
      * rewrite decide_False; [done|].
        intros [[=]|Hin]%elem_of_cons. destruct Hn.
        apply list_elem_of_fmap. by exists (k, None).
      * rewrite decide_True; [done|]. by left.
    + rewrite IH by done.
      assert (Hs : set_slot k v (n, b) = (n, b))
        by (unfold set_slot; cbn; by rewrite decide_False).
      rewrite Hs.
      destruct (decide ((k, None) ∈ rest)) as [Hin|Hin].
      * rewrite decide_True by (by right). done.
      * rewrite decide_False; [done|].
        intros [[= ? ?]|?]%elem_of_cons; [by subst|done].
Qed.

Lemma set_slots_nil (slots : list slot) : set_slots [] <$> slots = slots.
Proof.
  induction slots as [|[n b] slots IH]; [done|]. cbn. by rewrite IH.
Qed.

Lemma set_slots_cons k v kw (slots : list slot) :
  k ∉ kw.*1 ->
  set_slots kw <$> (set_slot k v <$> slots) = set_slots ((k, v) :: kw) <$> slots.
Proof.
  intros Hk. rewrite <- list_fmap_compose. apply list_fmap_ext.
  intros _ [n b] _. unfold compose, set_slot. cbn [fst].
  destruct (decide (n = k)) as [->|Hne]; unfold set_slots; cbn [fst];
    rewrite lookup_keyword_cons.
  - rewrite (decide_True _ _ (eq_refl k)). by rewrite lookup_keyword_None.
  - assert (Hne' : k <> n) by congruence.
    by rewrite (decide_False _ _ Hne').
Qed.

Lemma fill_keywords_eq kw (slots : list slot) :
  NoDup slots.*1 ->
  fill_keywords kw slots =
  if decide (NoDup kw.*1 /\ Forall (fun k => (k, None) ∈ slots) kw.*1)
  then Returns (set_slots kw <$> slots)
  else Raises TypeError.
Proof.
  revert slots. induction kw as [|[k v] kw IH]; intros slots Hnd;
    cbn [fill_keywords].
  - rewrite decide_True by (split; constructor). by rewrite set_slots_nil.
  - rewrite fill_keyword_eq by done. rewrite fmap_cons. cbn [fst].
    destruct (decide ((k, None) ∈ slots)) as [Hin|Hin]; cbn.
    + rewrite IH by (by rewrite set_slot_names).
      destruct (decide (NoDup kw.*1 /\
                        Forall (fun k0 => (k0, None) ∈ set_slot k v <$> slots)
                          kw.*1)) as [[H1 H2]|Hn].
      * assert (Hk : k ∉ kw.*1).
        { intros Hk. rewrite Forall_forall in H2.
          apply H2, elem_of_set_slot in Hk. by destruct Hk. }
        rewrite decide_True; [by rewrite set_slots_cons|].
        split; [by constructor|]. constructor; [done|].
        eapply Forall_impl; [exact H2|].
        intros k0 Hk0. by apply elem_of_set_slot in Hk0 as [? _].
      * rewrite decide_False; [done|].
        intros [[Hk H1]%NoDup_cons [_ H2]%Forall_cons]. apply Hn.
        split; [done|]. rewrite Forall_forall in H2 |- *.
        intros k0 Hk0. apply elem_of_set_slot. split; [by apply H2|].
        by intros ->.
    + rewrite decide_False; [done|].
      by intros [_ [? _]%Forall_cons].
Qed.

Lemma positional_slots_cons_nil n d ps :
  positional_slots ((n, d) :: ps) [] = (n, None) :: positional_slots ps [].
Proof. reflexivity. Qed.

Lemma positional_slots_cons_cons n d ps a args :
  positional_slots ((n, d) :: ps) (a :: args) =
  (n, Some a) :: positional_slots ps args.
Proof. reflexivity. Qed.

Lemma positional_slots_names ps args : (positional_slots ps args).*1 = ps.*1.
Proof.
  revert args. induction ps as [|[n d] ps IH]; intros [|a args]; [done..| |].
  - rewrite positional_slots_cons_nil, !fmap_cons. by rewrite IH.
  - rewrite positional_slots_cons_cons, !fmap_cons. by rewrite IH.
Qed.

Lemma elem_of_positional_slots k ps args :
  (k, None) ∈ positional_slots ps args <-> k ∈ drop (List.length args) ps.*1.
Proof.
  revert args. induction ps as [|[n d] ps IH]; intros [|a args].
  - cbn. by rewrite !elem_of_nil.
  - cbn. by rewrite !elem_of_nil.
  - rewrite positional_slots_cons_nil, fmap_cons. cbn [List.length drop fst].
    rewrite !elem_of_cons, IH. cbn [List.length drop].
    split; intros [H|H]; auto; left; congruence.
  - rewrite positional_slots_cons_cons, fmap_cons. cbn [List.length drop].
    rewrite elem_of_cons, IH. split; [|by right]. by intros [[=]|?].
Qed.

(** Argument binding for the factory, in closed form. *)
Lemma bind_args_create_controller args kw :
  bind_args create_controller_params args kw =
  if decide (fits create_controller_params.*1 args kw)
  then Returns [passed 0 "port" VNone args kw;
                passed 1 "debug" (VBool false) args kw;
                passed 2 "send_init" (VBool true) args kw]
  else Raises TypeError.
Proof.
  unfold bind_args.
  destruct (decide (List.length args <= 3)) as [Hlen|Hlen].
  2:{ rewrite fill_positional_too_many by (cbn; lia).
      rewrite decide_False; [done|]. by intros [? _]. }
  rewrite fill_positional_fits by done. cbn [mbind outcome_bind].
  rewrite fill_keywords_eq by
    (rewrite positional_slots_names; apply (bool_decide_unpack _);
     by vm_compute).
  assert (Hcond :
    (NoDup kw.*1 /\
     Forall (fun k => (k, None) ∈ positional_slots create_controller_params args)
       kw.*1)
    <-> fits create_controller_params.*1 args kw).
  { unfold fits. rewrite (Forall_iff _ _ _ (fun k => elem_of_positional_slots k _ _)).
    cbn [List.length fmap list_fmap]. tauto. }
  destruct (decide (fits create_controller_params.*1 args kw)) as [Hf|Hf].
  2:{ rewrite decide_False; [done|]. by rewrite Hcond. }
  rewrite decide_True by (by rewrite Hcond). cbn [mbind outcome_bind].
  destruct Hf as (_ & _ & Hall). rewrite Forall_forall in Hall.
  assert (Hfree : forall k,
            k ∉ drop (List.length args) create_controller_params.*1 ->
            lookup_keyword k kw = None).
  { intros k Hk. apply lookup_keyword_None. intros Hin. by apply Hk, Hall. }
  clear Hcond Hall.
  destruct args as [|a0 [|a1 [|a2 [|a3 args]]]];
    [| | | |exfalso; cbn in Hlen; lia];
    unfold passed, positional_slots, set_slots;
    cbn -[lookup_keyword] in Hfree |- *;
    rewrite ?(Hfree "port"), ?(Hfree "debug"), ?(Hfree "send_init")
      by compute_done;
    cbn -[lookup_keyword];
    repeat match goal with
    | |- context [lookup_keyword ?k kw] => destruct (lookup_keyword k kw)
    end; reflexivity.
Qed.

Lemma call_create_controller_eq args kw :
  call_create_controller args kw =
  if decide (fits create_controller_params.*1 args kw)
  then create_controller (passed 0 "port" VNone args kw)
         (passed 1 "debug" (VBool false) args kw)
         (passed 2 "send_init" (VBool true) args kw)
  else Raise TypeError.
Proof.
  unfold call_create_controller. rewrite bind_args_create_controller.
  by case_decide.
Qed.

Lemma fits_perm names args kw kw' :
  kw ≡ₚ kw' -> fits names args kw -> fits names args kw'.
Proof. unfold fits. intros Hp. by rewrite Hp. Qed.

Lemma passed_perm i name dflt args kw kw' :
  NoDup kw.*1 -> kw ≡ₚ kw' ->
  passed i name dflt args kw = passed i name dflt args kw'.
Proof.
  intros Hnd Hp. unfold passed. destruct (args !! i); [done|].
  by rewrite (lookup_keyword_perm _ kw kw').
Qed.

(** ** Which calls of the factory are accepted, and with which values *)

(** X1: a call of [create_controller] reaches the body exactly when it
    fits the three parameters: at most three positional arguments, no
    keyword given twice, and every keyword one of [port], [debug],
    [send_init] that no positional argument has already taken.  Every
    other call is a [TypeError] raised in place of the body. *)
Theorem create_controller_accepts_iff args kw :
  (fits ["port"; "debug"; "send_init"] args kw <->
     exists port debug send_init,
       call_create_controller args kw =
       create_controller port debug send_init)
  /\ (~ fits ["port"; "debug"; "send_init"] args kw <->
        call_create_controller args kw = Raise TypeError).
Proof.
  rewrite call_create_controller_eq.
  change (create_controller_params.*1) with ["port"; "debug"; "send_init"].
  case_decide as Hf; split; split; try done.
  - intros _. eauto.
  - intros (p & d & s & [=]).
Qed.

(** X2: in a call that fits, each parameter takes the positional argument
    at its place when there is one, else the keyword argument of its name,
    else its default ([None], [False], [True]); the body runs at these
    three values. *)
Theorem create_controller_call_values args kw :
  fits ["port"; "debug"; "send_init"] args kw ->
  call_create_controller args kw =
  create_controller (passed 0 "port" VNone args kw)
    (passed 1 "debug" (VBool false) args kw)
    (passed 2 "send_init" (VBool true) args kw).
Proof.
  intros Hf. rewrite call_create_controller_eq. by rewrite decide_True.
Qed.

Lemma create_controller_call_values_witness :
  call_create_controller [VStr "COM3"] [("send_init", VBool false)] =
  create_controller (VStr "COM3") (VBool false) (VBool false).
Proof.
  apply (create_controller_call_values
           [VStr "COM3"] [("send_init", VBool false)]).
  compute_done.
Defined.

(** X3: the order in which the keyword arguments of a call are written
    does not matter: two calls with the same positional arguments whose
    keyword arguments are a rearrangement of each other are the same
    computation, the body at the same three values or the [TypeError] in
    both. *)
Theorem create_controller_keyword_order args kw kw' :
  kw ≡ₚ kw' ->
  call_create_controller args kw = call_create_controller args kw'.
Proof.
  intros Hp. rewrite !call_create_controller_eq.
  destruct (decide (fits create_controller_params.*1 args kw)) as [Hf|Hf].
  - rewrite decide_True by (by apply (fits_perm _ _ kw)).
    destruct Hf as (_ & Hnd & _).
    by rewrite !(passed_perm _ _ _ _ kw kw').
  - rewrite decide_False; [done|].
    intros Hf'. apply Hf. by apply (fits_perm _ _ kw').
Qed.

Lemma create_controller_keyword_order_witness :
  call_create_controller [] [("debug", VBool true); ("port", VStr "COM3")] =
  call_create_controller [] [("port", VStr "COM3"); ("debug", VBool true)].
Proof.
  apply (create_controller_keyword_order []
           [("debug", VBool true); ("port", VStr "COM3")]
           [("port", VStr "COM3"); ("debug", VBool true)]).
  apply perm_swap.
Defined.

(** ** Runs of a call, and runs in sequence *)

Lemma run_bind {W A B : Type} (perform : effect -> W -> outcome value * W)
    (m : py A) (f : A -> py B) (w : W) :
  run perform (m ≫= f) w =
  match res (run perform m w) with
  | Returns a =>
      Result (res (run perform (f a) (final (run perform m w))))
        (final (run perform (f a) (final (run perform m w))))
        (trace (run perform m w)
           ++ trace (run perform (f a) (final (run perform m w))))
  | Raises e =>
      Result (Raises e) (final (run perform m w)) (trace (run perform m w))
  end.
Proof.
  revert w. induction m as [a|e|op k IH]; intros w.
  - cbn. by destruct (run perform (f a) w).
  - reflexivity.
  - change (Do op k ≫= f) with (Do op (fun v => k v ≫= f)). cbn.
    destruct (perform op w) as [[v|e] w1]; [|reflexivity].
    rewrite IH. cbn. by destruct (res (run perform (k v) w1)).
Qed.

Section Calls.
Context {W : Type}.
Variable perform : effect -> W -> outcome value * W.

(** X4: a call that does not fit the signature does nothing: it raises
    the [TypeError] with the environment as it was, and neither the
    constructor nor [connect] is reached. *)
Theorem create_controller_rejected_call args kw w :
  ~ fits ["port"; "debug"; "send_init"] args kw ->
  run perform (call_create_controller args kw) w =
  Result (Raises TypeError) w [].
Proof.
  intros Hf. rewrite call_create_controller_eq. by rewrite decide_False.
Qed.

(** X5: a call of [create_controller] raises [e] in exactly three cases:
    the call does not fit the signature and [e] is the [TypeError]; or it
    fits and the constructor, given the three bound values, raises [e]; or
    it fits, the constructor returns an object and [connect()] on that
    object raises [e]. *)
Theorem create_controller_call_raises_iff args kw w e :
  let op :=
    construction (passed 0 "port" VNone args kw)
      (passed 1 "debug" (VBool false) args kw)
      (passed 2 "send_init" (VBool true) args kw) in
  res (run perform (call_create_controller args kw) w) = Raises e <->
  (~ fits ["port"; "debug"; "send_init"] args kw /\ e = TypeError)
  \/ (fits ["port"; "debug"; "send_init"] args kw
      /\ ((perform op w).1 = Raises e
          \/ exists obj w1,
               perform op w = (Returns obj, w1)
               /\ (perform (connection obj) w1).1 = Raises e)).
Proof.
  cbn zeta. rewrite call_create_controller_eq.
  change (create_controller_params.*1) with ["port"; "debug"; "send_init"].
  case_decide as Hf.
  - rewrite run_create_controller.
    destruct (perform _ w) as [[obj|e1] w1] eqn:Hnew.
    + destruct (perform _ w1) as [[v|e2] w2] eqn:Hconn; cbn; split.
      * discriminate.
      * intros [[? _]|(_ & [Hc|(o & w' & [= <- <-] & Hc)])];
          [done|discriminate|]. rewrite Hconn in Hc. discriminate.
      * intros [= ->]. right. split; [done|]. right.
        exists obj, w1. by rewrite Hconn.
      * intros [[? _]|(_ & [Hc|(o & w' & [= <- <-] & Hc)])];
          [done|discriminate|]. rewrite Hconn in Hc. exact Hc.
    + cbn. split; [intros [= ->]; right; split; [done|by left]|].
      intros [[? _]|(_ & [Hc|(o & w' & Hc & _)])];
        [done|exact Hc|discriminate].
  - cbn. split.
    + intros [= <-]. by left.
    + intros [[_ ->]|[? _]]; done.
Qed.

(** X6: a run of the body that raises stops at the operation that raised.
    After a failing constructor nothing else is attempted.  After a
    failing [connect()] the log holds the construction and that one call:
    [connect] is not tried again, no other method is called on the
    controller already built, and the state is the one the failing call
    left. *)
Theorem create_controller_stops_at_failure port debug send_init w e :
  let r := run perform (create_controller port debug send_init) w in
  res r = Raises e ->
  (trace r = [(construction port debug send_init, Raises e)]
   /\ final r = (perform (construction port debug send_init) w).2)
  \/ exists obj w1,
       perform (construction port debug send_init) w = (Returns obj, w1)
       /\ trace r = [(construction port debug send_init, Returns obj);
                     (connection obj, Raises e)]
       /\ final r = (perform (connection obj) w1).2.
Proof.
  cbn zeta. rewrite run_create_controller.
  destruct (perform _ w) as [[obj|e1] w1] eqn:Hnew.
  - destruct (perform _ w1) as [[v|e2] w2] eqn:Hconn; cbn; [discriminate|].
    intros [= ->]. right. exists obj, w1. by rewrite Hconn.
  - cbn. intros [= ->]. by left.
Qed.

(** X7: the factory keeps nothing between calls.  When two calls in a row
    both return, each has built its own controller and connected it once,
    in this order, and the second call ran in the state the first one
    left. *)
Theorem create_controller_twice p1 d1 s1 p2 d2 s2 w a b :
  let twice : py (value * value) :=
    x ← create_controller p1 d1 s1;
    y ← create_controller p2 d2 s2;
    mret (x, y) in
  res (run perform twice w) = Returns (a, b) ->
  (exists v1 v2,
     trace (run perform twice w) =
     [(construction p1 d1 s1, Returns a); (connection a, Returns v1);
      (construction p2 d2 s2, Returns b); (connection b, Returns v2)])
  /\ count_ops is_instantiate (trace (run perform twice w)) = 2
  /\ final (run perform twice w) =
     final (run perform (create_controller p2 d2 s2)
              (final (run perform (create_controller p1 d1 s1) w))).
Proof.
  cbn zeta. rewrite run_bind.
  destruct (res (run perform (create_controller p1 d1 s1) w))
    as [x|e] eqn:H1; [|discriminate].
  destruct (run_create_controller_returns _ _ _ _ _ _ H1)
    as (w1 & v1 & w2 & _ & _ & ->).
  cbn [res final trace]. rewrite run_bind.
  destruct (res (run perform (create_controller p2 d2 s2) w2))
    as [y|e] eqn:H2; [|discriminate].
  destruct (run_create_controller_returns _ _ _ _ _ _ H2)
    as (w3 & v2 & w4 & _ & _ & ->).
  cbn. intros [= -> ->]. split; [by exists v1, v2|]. done.
Qed.

(** X8: [setup(app)] performs one operation, the call
    [app.add_css_file('custom.css')] with that single positional argument.
    What the call returns is dropped and [setup] returns [None]; what it
    raises is raised by [setup]. *)
Theorem setup_registers_stylesheet app w :
  let op := CallMethod app "add_css_file" [VStr "custom.css"] [] in
  let r := run perform (setup app) w in
  trace r = [(op, (perform op w).1)]
  /\ final r = (perform op w).2
  /\ res r = match (perform op w).1 with
             | Returns _ => Returns VNone
             | Raises e => Raises e
             end.
Proof.
  cbn. by destruct (perform _ w) as [[v|e] w1].
Qed.

End Calls.

Lemma create_controller_rejected_call_witness :
  run Mock.perform
    (call_create_controller [VStr "COM3"] [("port", VStr "COM4")]) [] =
  Result (Raises TypeError) [] [].
Proof.
  apply (create_controller_rejected_call Mock.perform
           [VStr "COM3"] [("port", VStr "COM4")] []).
  compute_done.
Defined.

Lemma create_controller_stops_at_failure_witness :
  res (run Mock.perform
         (create_controller VNone (VBool false) (VBool true)) [])
    = Raises Mock.MakcuConnectionError
  /\ exists obj w1,
       Mock.perform (construction VNone (VBool false) (VBool true)) []
         = (Returns obj, w1)
       /\ trace (run Mock.perform
                   (create_controller VNone (VBool false) (VBool true)) [])
          = [(construction VNone (VBool false) (VBool true), Returns obj);
             (connection obj, Raises Mock.MakcuConnectionError)]
       /\ final (run Mock.perform
                   (create_controller VNone (VBool false) (VBool true)) [])
          = (Mock.perform (connection obj) w1).2.
Proof.
  split; [reflexivity|].
  destruct (create_controller_stops_at_failure Mock.perform
              VNone (VBool false) (VBool true) [] Mock.MakcuConnectionError
              eq_refl) as [[Ht _]|H].
  - discriminate Ht.
  - exact H.
Defined.

Lemma create_controller_twice_witness :
  count_ops is_instantiate
    (trace (run Mock.perform
              (x ← create_controller (VStr "COM3") (VBool false) (VBool true);
               y ← create_controller (VStr "COM4") (VBool true) (VBool true);
               mret (x, y)) [])) = 2.
Proof.
  apply (create_controller_twice Mock.perform
           (VStr "COM3") (VBool false) (VBool true)
           (VStr "COM4") (VBool true) (VBool true) [] (VObj 0) (VObj 1)).
  reflexivity.
Defined.

(** ** Calls of [setup] *)

(** X9: [setup] takes exactly one argument, the application, given by
    position or as the keyword [app]; a call without it, with a second
    argument or with any other keyword is a [TypeError] and the body does
    not run. *)
Theorem setup_call_forms args kw :
  call_setup args kw =
  match args, kw with
  | [app], [] => setup app
  | [], [(k, app)] => if decide (k = "app") then setup app else Raise TypeError
  | _, _ => Raise TypeError
  end.
Proof.
  unfold call_setup, bind_args.
  destruct args as [|a [|a' args]].
  - destruct kw as [|[k v] [|[k' v'] kw]]; cbn; [done| |].
    + destruct (decide ("app" = k)) as [<-|Hk]; cbn; [done|].
      by rewrite decide_False by congruence.
    + destruct (decide ("app" = k)) as [<-|Hk]; cbn; [|done].
      by destruct (decide ("app" = k')).
  - destruct kw as [|[k v] kw]; cbn; [done|].
    destruct (decide ("app" = k)); cbn; done.
  - rewrite fill_positional_too_many by (cbn; lia). done.
Qed.

(** ** The prompt pattern of [docs/conf.py] *)

Lemma elem_of_counts p len n :
  n ∈ counts p len <->
  at_least p <= n /\ n <= len /\ (forall m, at_most p = Some m -> n <= m).
Proof.
  unfold counts. rewrite elem_of_seq. destruct (at_most p) as [m|].
  - split.
    + intros H. repeat split; [lia..|]. intros ? [= <-]. lia.
    + intros (H1 & H2 & H3). specialize (H3 m eq_refl). lia.
  - split; [intros H; repeat split; [lia..|done]|]. intros (? & ? & _). lia.
Qed.

Lemma match_seq_nil s : match_seq [] s = true <-> s = [].
Proof. cbn. apply bool_decide_eq_true. Qed.

Lemma match_seq_cons p ps s :
  match_seq (p :: ps) s = true <->
  exists s1 s2,
    s = s1 ++ s2
    /\ at_least p <= List.length s1
    /\ (forall m, at_most p = Some m -> List.length s1 <= m)
    /\ forallb (atom_matches (what p)) s1 = true
    /\ match_seq ps s2 = true.
Proof.
  cbn [match_seq]. rewrite existsb_exists. split.
  - intros (n & Hn & [Hall Hrest]%andb_true_iff).
    apply list_elem_of_In, elem_of_counts in Hn as (H1 & H2 & H3).
    exists (take n s), (drop n s).
    rewrite take_drop, length_take_le by done. auto.
  - intros (s1 & s2 & -> & H1 & H2 & Hall & Hrest).
    exists (List.length s1). split.
    + apply list_elem_of_In, elem_of_counts.
      rewrite length_app. split; [done|]. split; [lia|done].
    + by rewrite take_app_length, drop_app_length, Hall, Hrest.
Qed.

Lemma match_seq_once c ps s :
  match_seq (once (Char c) :: ps) s = true <->
  exists s', s = c :: s' /\ match_seq ps s' = true.
Proof.
  rewrite match_seq_cons. cbn. split.
  - intros (s1 & s2 & -> & H1 & H2 & Hall & Hrest).
    specialize (H2 1 eq_refl).
    destruct s1 as [|c' [|c'' s1]]; cbn in *; try lia.
    rewrite andb_true_r in Hall. apply bool_decide_eq_true in Hall as ->.
    by exists s2.
  - intros (s' & -> & Hrest). exists [c], s'. cbn.
    rewrite bool_decide_eq_true_2 by done.
    repeat split; [lia| |done]. by intros ? [= <-].
Qed.

Lemma match_seq_lit l ps s :
  match_seq (lit l ++ ps) s = true <->
  exists s', s = chars l ++ s' /\ match_seq ps s' = true.
Proof.
  unfold lit. revert s. induction (chars l) as [|c cs IH]; intros s; cbn [fmap list_fmap app].
  - split; [by exists s|]. by intros (s' & -> & ?).
  - rewrite match_seq_once. split.
    + intros (s1 & -> & (s' & -> & H)%IH). by exists s'.
    + intros (s' & -> & H). exists (cs ++ s'). split; [done|].
      apply IH. by exists s'.
Qed.

Lemma match_seq_digits ps s :
  match_seq (star Digit :: ps) s = true <->
  exists ds s',
    s = ds ++ s' /\ forallb is_digit ds = true /\ match_seq ps s' = true.
Proof.
  rewrite match_seq_cons. cbn. split.
  - intros (s1 & s2 & -> & _ & _ & Hall & Hrest). by exists s1, s2.
  - intros (ds & s' & -> & Hall & Hrest). exists ds, s'.
    repeat split; [lia|done..].
Qed.

Lemma forallb_space s :
  forallb (atom_matches (Char " "%char)) s = true <->
  s = replicate (List.length s) " "%char.
Proof.
  induction s as [|c s IH]; cbn; [done|].
  rewrite andb_true_iff, IH, bool_decide_eq_true. split.
  - intros [-> <-]. done.
  - intros [= -> Hs]. done.
Qed.

Lemma match_seq_spaces m n ps s :
  match_seq (between m n (Char " "%char) :: ps) s = true <->
  exists k s',
    m <= k <= n /\ s = replicate k " "%char ++ s' /\ match_seq ps s' = true.
Proof.
  rewrite match_seq_cons. cbn. split.
  - intros (s1 & s2 & -> & H1 & H2 & Hall%forallb_space & Hrest).
    specialize (H2 n eq_refl). exists (List.length s1), s2.
    by rewrite <- Hall.
  - intros (k & s' & Hk & -> & Hrest). exists (replicate k " "%char), s'.
    rewrite length_replicate. repeat split; [lia| | |done].
    + intros ? [= <-]. lia.
    + apply forallb_space. by rewrite length_replicate.
Qed.

Lemma match_seq_lit_only l s : match_seq (lit l) s = true <-> s = chars l.
Proof.
  rewrite <- (app_nil_r (lit l)), match_seq_lit. split.
  - intros (s' & -> & ->%match_seq_nil). by rewrite app_nil_r.
  - intros ->. exists []. by rewrite app_nil_r.
Qed.

Lemma match_seq_numbered l r s :
  match_seq (lit l ++ [star Digit] ++ lit r) s = true <->
  exists ds, forallb is_digit ds = true /\ s = chars l ++ ds ++ chars r.
Proof.
  rewrite match_seq_lit. split.
  - intros (s' & -> & H). cbn [app] in H.
    apply match_seq_digits in H as (ds & s'' & -> & Hd & H).
    apply match_seq_lit_only in H as ->. by exists ds.
  - intros (ds & Hd & ->). exists (ds ++ chars r). split; [done|].
    cbn [app]. apply match_seq_digits. exists ds, (chars r).
    split; [done|]. split; [done|]. by apply match_seq_lit_only.
Qed.

Lemma match_seq_indented m n r s :
  match_seq ([between m n (Char " "%char)] ++ lit r) s = true <->
  exists k, m <= k <= n /\ s = replicate k " "%char ++ chars r.
Proof.
  cbn [app]. rewrite match_seq_spaces. split.
  - intros (k & s' & Hk & -> & ->%match_seq_lit_only). by exists k.
  - intros (k & Hk & ->). exists k, (chars r).
    split; [done|]. split; [done|]. by apply match_seq_lit_only.
Qed.

(** X10: the texts the prompt pattern matches are exactly these: the
    Python prompts [>>> ] and [... ], the shell prompt [$ ], the IPython
    prompt [In [n]: ] for any run of decimal digits [n], the empty run
    included, the IPython continuation [...: ] behind two to five spaces,
    and [: ] behind five to eight spaces. *)
Theorem prompt_forms (s : list ascii) :
  matches copybutton_prompt_text s = true <->
  s = chars ">>> "
  \/ s = chars "... "
  \/ s = chars "$ "
  \/ (exists ds,
        forallb is_digit ds = true /\ s = chars "In [" ++ ds ++ chars "]: ")
  \/ (exists n, 2 <= n <= 5 /\ s = replicate n " "%char ++ chars "...: ")
  \/ (exists n, 5 <= n <= 8 /\ s = replicate n " "%char ++ chars ": ").
Proof.
  unfold matches, copybutton_prompt_text. cbn [existsb].
  rewrite orb_false_r, !orb_true_iff.
  rewrite !match_seq_lit_only, match_seq_numbered, !match_seq_indented.
  reflexivity.
Qed.

Lemma digits_not_bracket ds :
  forallb is_digit ds = true -> "]"%char ∉ ds.
Proof.
  induction ds as [|c ds IH]; cbn; [intros _; by intros ?%elem_of_nil|].
  intros [Hc Hds]%andb_true_iff [<-|Hin]%elem_of_cons; [done|by apply IH].
Qed.

Lemma numbered_inj ds ds' r r' :
  forallb is_digit ds = true -> forallb is_digit ds' = true ->
  ds ++ "]"%char :: r = ds' ++ "]"%char :: r' -> ds = ds' /\ r = r'.
Proof.
  intros Hd Hd' H.
  apply not_elem_of_app_cons_inv_l in H as (? & _ & ?);
    auto using digits_not_bracket.
Qed.

Lemma indented_inj n m c c' r r' :
  c <> " "%char -> c' <> " "%char ->
  replicate n " "%char ++ c :: r = replicate m " "%char ++ c' :: r' ->
  n = m /\ c = c' /\ r = r'.
Proof.
  intros Hc Hc' H.
  apply not_elem_of_app_cons_inv_l in H as (Hnm & ? & ?).
  - split; [|done]. apply (f_equal List.length) in Hnm.
    by rewrite !length_replicate in Hnm.
  - by intros ?%elem_of_replicate_inv.
  - by intros ?%elem_of_replicate_inv.
Qed.

Ltac expose H :=
  rewrite <- ?app_assoc in H; unfold chars in H;
  cbn [String.list_ascii_of_string app] in H.

Ltac head_clash H n :=
  destruct n as [|[|n]]; [lia|lia|]; cbn [replicate app] in H; discriminate H.

(** X11: no prompt is the beginning of a longer prompt: when a text and
    an extension of it both match the pattern, the extension adds
    nothing.  So at most one leading part of a line is a prompt. *)
Theorem prompt_prefix_free (s t : list ascii) :
  matches copybutton_prompt_text s = true ->
  matches copybutton_prompt_text (s ++ t) = true ->
  t = [].
Proof.
  intros [H1|[H1|[H1|[(ds&Hd&H1)|[(n&Hn&H1)|(n&Hn&H1)]]]]]%prompt_forms
         [H2|[H2|[H2|[(ds'&Hd'&H2)|[(m&Hm&H2)|(m&Hm&H2)]]]]]%prompt_forms;
    subst s; expose H2.
  all: try discriminate H2.
  all: try (by simplify_eq).
  all: try (head_clash H2 m).
  all: try (head_clash H2 n).
  all: try (apply indented_inj in H2 as (_ & ? & ?); [by simplify_eq|done..]).
  - injection H2 as H2. apply numbered_inj in H2 as [_ H2]; [|done..].
    by simplify_eq.
Qed.

Lemma prompt_prefix_free_witness : @nil ascii = [].
Proof.
  apply (prompt_prefix_free (chars "In [12]: ") []); reflexivity.
Defined.

(** The pattern on some lines of an interactive session. *)
Example prompt_examples :
  matches copybutton_prompt_text (chars ">>> ") = true
  /\ matches copybutton_prompt_text (chars "In []: ") = true
  /\ matches copybutton_prompt_text (chars "   ...: ") = true
  /\ matches copybutton_prompt_text (chars " ...: ") = false
  /\ matches copybutton_prompt_text (chars "    : ") = false
  /\ matches copybutton_prompt_text (chars ">>>") = false
  /\ matches copybutton_prompt_text (chars "") = false.
Proof. repeat split; reflexivity. Qed.
